(** * Lazily materialised clan views (coc/clans.py)

    A shallow embedding of [RankedClan] and [Clan] from [coc/clans.py] and of
    the Python behaviour these classes rely on: decoded JSON records,
    insertion-ordered dictionaries, one-shot generators, exceptions.

    Collaborators that live in other modules of the package ([ClanMember],
    [Label], [Location], [WarLeague], [correct_tag], [try_enum], [get]) are
    either section variables or carry a doc comment saying how they were
    modelled. *)

From Stdlib Require Import List String Ascii Bool Arith ZArith Lia Permutation.
Import ListNotations.
Open Scope string_scope.
Open Scope list_scope.

Set Implicit Arguments.

(** ** Python values and exceptions *)

(** A decoded JSON payload.  Python dictionaries keep insertion order, so a
    dictionary is an association list with pairwise different keys.  Numbers
    are integers: the classes only store and hand on what they read. *)
#[warnings="-register-all"]
Inductive value : Type :=
| VNone
| VBool (b : bool)
| VInt (z : Z)
| VStr (s : string)
| VList (l : list value)
| VDict (d : list (string * value)).

Inductive exn : Type := KeyError | TypeError.

Inductive outcome (A : Type) : Type :=
| Ret (a : A)
| Raise (e : exn).

Arguments Ret {A} a.
Arguments Raise {A} e.

(** ** Insertion-ordered dictionaries with string keys *)

Module Dict.
Section Dict.
Variable V : Type.

Definition t := list (string * V).

(** [d.get(k)] as an option. *)
Fixpoint find (k : string) (d : t) : option V :=
  match d with
  | [] => None
  | (k', v) :: d' => if String.eqb k k' then Some v else find k d'
  end.

(** [d[k] = v]: an existing key keeps its position and takes the new
    value, a new key goes to the end. *)
Fixpoint set (k : string) (v : V) (d : t) : t :=
  match d with
  | [] => [(k, v)]
  | (k', v') :: d' =>
      if String.eqb k k' then (k', v) :: d' else (k', v') :: set k v d'
  end.

(** [d[k]], which raises [KeyError] on a missing key. *)
Definition getitem (k : string) (d : t) : outcome V :=
  match find k d with
  | Some v => Ret v
  | None => Raise KeyError
  end.

Definition keys (d : t) : list string := map fst d.
Definition values (d : t) : list V := map snd d.

(** Truth value of a dictionary: empty dictionaries are falsy. *)
Definition truthy (d : t) : bool :=
  match d with [] => false | _ :: _ => true end.
End Dict.
End Dict.

(** [data.get(key)] and [data.get(key, default)] on a decoded record. *)
Definition data_get (data : Dict.t value) (k : string) : value :=
  match Dict.find k data with
  | Some v => v
  | None => VNone
  end.

Definition data_get_or (data : Dict.t value) (k : string) (default : value)
  : value :=
  match Dict.find k data with
  | Some v => v
  | None => default
  end.

(** [iter(v)]: the elements a [for] loop over [v] visits.  Lists give their
    elements, dictionaries their keys, strings their characters; the other
    values are not iterable. *)
Definition py_iter (v : value) : outcome (list value) :=
  match v with
  | VList l => Ret l
  | VDict d => Ret (map (fun kv => VStr (fst kv)) d)
  | VStr s => Ret (map (fun c => VStr (String c EmptyString)) (list_ascii_of_string s))
  | VNone | VBool _ | VInt _ => Raise TypeError
  end.

(** ** State and exceptions *)

Definition M (S A : Type) : Type := S -> outcome A * S.

Definition ret {S A} (a : A) : M S A := fun s => (Ret a, s).

Definition bind {S A B} (c : M S A) (k : A -> M S B) : M S B :=
  fun s =>
    match c s with
    | (Ret a, s') => k a s'
    | (Raise e, s') => (Raise e, s')
    end.

Definition lift {S A} (o : outcome A) : M S A := fun s => (o, s).

Definition modify {S} (f : S -> S) : M S unit := fun s => (Ret tt, f s).

Definition gets {S A} (f : S -> A) : M S A := fun s => (Ret (f s), s).

(** [try: c  except KeyError: h] *)
Definition try_except_KeyError {S A} (c : M S A) (h : M S A) : M S A :=
  fun s =>
    match c s with
    | (Raise KeyError, s') => h s'
    | r => r
    end.

Declare Scope py_scope.
Delimit Scope py_scope with py.
Notation "x <- c ;; k" := (bind c (fun x => k))
  (at level 61, c at next level, right associativity) : py_scope.
Notation "c ;; k" := (bind c (fun _ => k))
  (at level 61, right associativity) : py_scope.
Open Scope py_scope.

(** ** Collaborators *)

(** Modelled from the spec: [try_enum] of [coc/miscmodels.py] is not part of
    the sources at hand.  The spec describes it as a lookup that takes a raw
    sub-record and returns the resolved value, or unknown when the sub-record
    is absent, and that does not fail on absent input. *)
Definition try_enum {A : Type} (cls : value -> A) (data : value) : option A :=
  match data with
  | VNone => None
  | _ => Some (cls data)
  end.

(** Modelled from the spec: [get] of [coc/utils.py] is not part of the
    sources at hand.  The spec describes it as returning the first element,
    in iteration order, for which every supplied attribute equals the
    corresponding attribute of the candidate under equality comparison, and
    not-found when no element matches. *)
Section Get.
Variables E AttrVal : Type.
Variable getattr : E -> string -> AttrVal.
Variable py_eq : AttrVal -> AttrVal -> bool.

(** Every supplied attribute of [elem] equals the expected value. *)
Definition predicate (attrs : list (string * AttrVal)) (elem : E) : bool :=
  forallb (fun av => py_eq (getattr elem (fst av)) (snd av)) attrs.

Definition get (iterable : list E) (attrs : list (string * AttrVal))
  : option E :=
  List.find (predicate attrs) iterable.
End Get.

(** ** RankedClan *)

Section RankedClan.
Variable Location : Type.
Variable Location_cls : value -> Location.

Record RankedClan : Type := {
  rc_points : value;
  rc_versus_points : value;
  rc_member_count : value;
  rc_location : option Location;
  rc_rank : value;
  rc_previous_rank : value
}.

(** [RankedClan._from_data]; the base-class initialiser only fills the
    identity fields, which are not modelled. *)
Definition RankedClan__from_data (data : Dict.t value) : RankedClan :=
  {| rc_points := data_get data "clanPoints";
     rc_versus_points := data_get data "clanVersusPoints";
     rc_member_count := data_get data "members";
     rc_location := try_enum Location_cls (data_get data "location");
     rc_rank := data_get data "rank";
     rc_previous_rank := data_get data "previousRank" |}.

(** The record key behind each plain field. *)
Definition RankedClan_scalars : list (string * (RankedClan -> value)) :=
  [ ("clanPoints", rc_points);
    ("clanVersusPoints", rc_versus_points);
    ("members", rc_member_count);
    ("rank", rc_rank);
    ("previousRank", rc_previous_rank) ].
End RankedClan.

(** ** Clan *)

(** The two lazily built collections of a clan. *)
Inductive coll : Type := Labels | Members.

(** What a run leaves behind for an observer: a consumer starting to iterate
    one of the pending generators, and an element constructor being called on
    a raw sub-record. *)
Inductive event : Type :=
| EvIter (c : coll)
| EvNew (c : coll) (raw : value).

Section Clan.
Variables Label Member Location WarLeague AttrVal : Type.
(** [Label(data=..., client=...)], [ClanMember(data=..., client=...,
    clan=self)], [Location(data=...)], [WarLeague(data=...)]: the client
    and the owning clan are references the elements merely keep. *)
Variable label_cls : value -> Label.
Variable member_cls : value -> Member.
Variable Location_cls : value -> Location.
Variable WarLeague_cls : value -> WarLeague.
(** [m.tag] *)
Variable member_tag : Member -> string.
(** [coc.utils.correct_tag] *)
Variable correct_tag : string -> string.
(** [getattr(m, name)] and [==] on attribute values, as [get] uses them. *)
Variable getattr : Member -> string -> AttrVal.
Variable py_eq : AttrVal -> AttrVal -> bool.

(** The slots of a [Clan].  A generator expression over a list is
    represented by the raw sub-records it has not visited yet; an exhausted
    generator is the empty list. *)
Record Clan : Type := {
  type_ : value;
  description : value;
  location : option Location;
  points : value;
  versus_points : value;
  required_trophies : value;
  war_frequency : value;
  war_win_streak : value;
  war_wins : value;
  war_ties : value;
  war_losses : value;
  public_war_log : value;
  member_count : value;
  war_league : option WarLeague;
  _labels : option (list Label);
  _members : option (Dict.t Member);
  iter_labels : list value;
  iter_members : list value
}.

Definition set__labels (l : option (list Label)) (c : Clan) : Clan :=
  {| type_ := type_ c; description := description c; location := location c;
     points := points c; versus_points := versus_points c;
     required_trophies := required_trophies c;
     war_frequency := war_frequency c; war_win_streak := war_win_streak c;
     war_wins := war_wins c; war_ties := war_ties c;
     war_losses := war_losses c; public_war_log := public_war_log c;
     member_count := member_count c; war_league := war_league c;
     _labels := l; _members := _members c;
     iter_labels := iter_labels c; iter_members := iter_members c |}.

Definition set__members (d : option (Dict.t Member)) (c : Clan) : Clan :=
  {| type_ := type_ c; description := description c; location := location c;
     points := points c; versus_points := versus_points c;
     required_trophies := required_trophies c;
     war_frequency := war_frequency c; war_win_streak := war_win_streak c;
     war_wins := war_wins c; war_ties := war_ties c;
     war_losses := war_losses c; public_war_log := public_war_log c;
     member_count := member_count c; war_league := war_league c;
     _labels := _labels c; _members := d;
     iter_labels := iter_labels c; iter_members := iter_members c |}.

Definition set_iter_labels (g : list value) (c : Clan) : Clan :=
  {| type_ := type_ c; description := description c; location := location c;
     points := points c; versus_points := versus_points c;
     required_trophies := required_trophies c;
     war_frequency := war_frequency c; war_win_streak := war_win_streak c;
     war_wins := war_wins c; war_ties := war_ties c;
     war_losses := war_losses c; public_war_log := public_war_log c;
     member_count := member_count c; war_league := war_league c;
     _labels := _labels c; _members := _members c;
     iter_labels := g; iter_members := iter_members c |}.

Definition set_iter_members (g : list value) (c : Clan) : Clan :=
  {| type_ := type_ c; description := description c; location := location c;
     points := points c; versus_points := versus_points c;
     required_trophies := required_trophies c;
     war_frequency := war_frequency c; war_win_streak := war_win_streak c;
     war_wins := war_wins c; war_ties := war_ties c;
     war_losses := war_losses c; public_war_log := public_war_log c;
     member_count := member_count c; war_league := war_league c;
     _labels := _labels c; _members := _members c;
     iter_labels := iter_labels c; iter_members := g |}.

(** Lines 157-172 of [Clan._from_data]: the plain fields. *)
Definition assign_scalars (data : Dict.t value) (c : Clan) : Clan :=
  {| points := data_get data "clanPoints";
     versus_points := data_get data "clanVersusPoints";
     member_count := data_get data "members";
     location := try_enum Location_cls (data_get data "location");
     type_ := data_get data "type";
     required_trophies := data_get data "requiredTrophies";
     war_frequency := data_get data "warFrequency";
     war_win_streak := data_get data "warWinStreak";
     war_wins := data_get data "warWins";
     war_ties := data_get data "warTies";
     war_losses := data_get data "warLosses";
     public_war_log := data_get data "isWarLogPublic";
     description := data_get data "description";
     war_league := try_enum WarLeague_cls (data_get data "warLeague");
     _labels := _labels c; _members := _members c;
     iter_labels := iter_labels c; iter_members := iter_members c |}.

(** [Clan._from_data].  A generator expression evaluates [iter] of its
    outermost iterable when it is created, so a value that is not iterable
    raises here, after the plain fields have been assigned. *)
Definition Clan__from_data (data : Dict.t value) : M Clan unit :=
  modify (assign_scalars data) ;;
  ldatas <- lift (py_iter (data_get_or data "labels" (VList []))) ;;
  modify (set_iter_labels ldatas) ;;
  mdatas <- lift (py_iter (data_get_or data "memberList" (VList []))) ;;
  modify (set_iter_members mdatas).

(** The object [Clan.__init__] hands to [_from_data].  Lines 149-150 assign
    [None] to both caches.  No other slot has been assigned at that point:
    [unset] stands for whatever such slots hold, so that what is stated of a
    clan for every [unset] is owed to the assignments of [_from_data]. *)
Definition Clan_alloc (unset : Clan) : Clan :=
  set__members None (set__labels None unset).

(** [Clan(data=data, client=client)] *)
Definition Clan_new (unset : Clan) (data : Dict.t value) : outcome Clan :=
  match Clan__from_data data (Clan_alloc unset) with
  | (Ret _, c) => Ret c
  | (Raise e, _) => Raise e
  end.

(** The record key behind each plain field. *)
Definition Clan_scalars : list (string * (Clan -> value)) :=
  [ ("clanPoints", points);
    ("clanVersusPoints", versus_points);
    ("members", member_count);
    ("type", type_);
    ("requiredTrophies", required_trophies);
    ("warFrequency", war_frequency);
    ("warWinStreak", war_win_streak);
    ("warWins", war_wins);
    ("warTies", war_ties);
    ("warLosses", war_losses);
    ("isWarLogPublic", public_war_log);
    ("description", description) ].

(** *** The accessors *)

(** A clan together with the events observed so far. *)
Record world : Type := { self : Clan; trace : list event }.

Definition on_self (f : Clan -> Clan) (w : world) : world :=
  {| self := f (self w); trace := trace w |}.

Definition emit (evs : list event) (w : world) : world :=
  {| self := self w; trace := trace w ++ evs |}.

(** A consumer ([list(...)] or a comprehension) runs a pending generator to
    its end: every raw sub-record left goes through the element
    constructor, in order, and the generator stays exhausted. *)
Definition drain_labels : M world (list Label) :=
  ldatas <- gets (fun w => iter_labels (self w)) ;;
  modify (emit (EvIter Labels :: map (EvNew Labels) ldatas)) ;;
  modify (on_self (set_iter_labels [])) ;;
  ret (map label_cls ldatas).

Definition drain_members : M world (list Member) :=
  mdatas <- gets (fun w => iter_members (self w)) ;;
  modify (emit (EvIter Members :: map (EvNew Members) mdatas)) ;;
  modify (on_self (set_iter_members [])) ;;
  ret (map member_cls mdatas).

(** [{m.tag: m for m in ms}] *)
Definition dict_by_tag (ms : list Member) : Dict.t Member :=
  fold_left (fun d m => Dict.set (member_tag m) m d) ms [].

(** [Clan.labels] *)
Definition labels : M world (list Label) :=
  list_labels <- gets (fun w => _labels (self w)) ;;
  match list_labels with
  | Some l => ret l
  | None =>
      l <- drain_labels ;;
      modify (on_self (set__labels (Some l))) ;;
      ret l
  end.

(** [Clan.members] *)
Definition members : M world (list Member) :=
  dict_members <- gets (fun w => _members (self w)) ;;
  match dict_members with
  | Some d => ret (Dict.values d)
  | None =>
      ms <- drain_members ;;
      modify (on_self (set__members (Some (dict_by_tag ms)))) ;;
      ret (Dict.values (dict_by_tag ms))
  end.

(** [not dict_members]: true for [None] and for the empty dictionary. *)
Definition falsy (od : option (Dict.t Member)) : bool :=
  match od with
  | None => true
  | Some d => negb (Dict.truthy d)
  end.

(** [Clan.get_member] *)
Definition get_member (tag : string) : M world (option Member) :=
  let tag := correct_tag tag in
  dict_members <- gets (fun w => _members (self w)) ;;
  d <- (if falsy dict_members then
          ms <- drain_members ;;
          modify (on_self (set__members (Some (dict_by_tag ms)))) ;;
          ret (dict_by_tag ms)
        else
          (* a truthy [dict_members] is a dictionary *)
          ret (match dict_members with Some d => d | None => [] end)) ;;
  try_except_KeyError
    (m <- lift (Dict.getitem tag d) ;; ret (Some m))
    (ret None).

(** [Clan.get_member_by] *)
Definition get_member_by (attrs : list (string * AttrVal))
  : M world (option Member) :=
  ms <- members ;;
  ret (get getattr py_eq ms attrs).

(** *** Call sequences *)

Inductive op : Type :=
| OpLabels
| OpMembers
| OpGetMember (tag : string)
| OpGetMemberBy (attrs : list (string * AttrVal)).

Definition run_op (o : op) (w : world) : world :=
  match o with
  | OpLabels => snd (labels w)
  | OpMembers => snd (members w)
  | OpGetMember tag => snd (get_member tag w)
  | OpGetMemberBy attrs => snd (get_member_by attrs w)
  end.

Definition run_ops (os : list op) (w : world) : world :=
  fold_left (fun w o => run_op o w) os w.

Definition fresh (c : Clan) : world := {| self := c; trace := [] |}.

(** How often a consumer started on the pending generator of [c], and the
    raw sub-records its element constructor was called on. *)
Definition is_iter (c : coll) (e : event) : bool :=
  match e, c with
  | EvIter Labels, Labels | EvIter Members, Members => true
  | _, _ => false
  end.

Definition iter_count (c : coll) (tr : list event) : nat :=
  List.length (filter (is_iter c) tr).

Fixpoint constructed (c : coll) (tr : list event) : list value :=
  match tr with
  | [] => []
  | EvNew c' raw :: tr' =>
      match c, c' with
      | Labels, Labels | Members, Members => raw :: constructed c tr'
      | _, _ => constructed c tr'
      end
  | EvIter _ :: tr' => constructed c tr'
  end.

(** What the members cache holds once it is filled from the member
    sub-records [ms]. *)
Definition members_cache (ms : list value) : Dict.t Member :=
  dict_by_tag (map member_cls ms).

(** *** What the accessors maintain

    For a clan whose pending generators were created over the label
    sub-records [ls] and the member sub-records [ms]: a cache is either
    still [None] with its generator untouched, or it holds the collection
    built from all of the sub-records and the generator is exhausted. *)
Definition labels_inv (ls : list value) (w : world) : Prop :=
  match _labels (self w) with
  | None =>
      iter_labels (self w) = ls /\
      iter_count Labels (trace w) = 0 /\
      constructed Labels (trace w) = []
  | Some l =>
      l = map label_cls ls /\
      iter_labels (self w) = [] /\
      iter_count Labels (trace w) = 1 /\
      constructed Labels (trace w) = ls
  end.

Definition members_inv (ms : list value) (w : world) : Prop :=
  match _members (self w) with
  | None =>
      iter_members (self w) = ms /\
      iter_count Members (trace w) = 0 /\
      constructed Members (trace w) = []
  | Some d =>
      d = members_cache ms /\
      iter_members (self w) = [] /\
      1 <= iter_count Members (trace w) /\
      (ms <> [] -> iter_count Members (trace w) = 1) /\
      constructed Members (trace w) = ms
  end.

Definition inv (ls ms : list value) (w : world) : Prop :=
  labels_inv ls w /\ members_inv ms w.
End Clan.

Arguments OpLabels {AttrVal}.
Arguments OpMembers {AttrVal}.
Arguments OpGetMember {AttrVal} tag.

(** ** Reference descriptions of a dictionary built by tag *)

(** The different strings of a list, each at the place of its first
    occurrence. *)
Fixpoint first_occurrences (l : list string) : list string :=
  match l with
  | [] => []
  | x :: l' =>
      x :: filter (fun y => negb (String.eqb y x)) (first_occurrences l')
  end.

(** The last element of [ms] that carries the tag [k]. *)
Definition last_with_tag {Member : Type} (member_tag : Member -> string)
  (k : string) (ms : list Member) : option Member :=
  List.find (fun m => String.eqb (member_tag m) k) (rev ms).

(** ** A concrete instance

    One choice of collaborators, used to run the accessors on concrete
    records. *)

Module Sample.
(** A member keeps its tag, its name and its level. *)
Record member : Type := { m_tag : string; m_name : value; m_level : value }.

Definition str_or_empty (v : value) : string :=
  match v with VStr s => s | _ => "" end.

Definition member_cls (mdata : value) : member :=
  match mdata with
  | VDict d =>
      {| m_tag := str_or_empty (data_get d "tag");
         m_name := data_get d "name";
         m_level := data_get d "expLevel" |}
  | _ => {| m_tag := ""; m_name := VNone; m_level := VNone |}
  end.

Definition getattr (m : member) (name : string) : value :=
  if String.eqb name "tag" then VStr (m_tag m)
  else if String.eqb name "name" then m_name m
  else if String.eqb name "level" then m_level m
  else VNone.

(** Equality on the values an attribute of [member] can hold. *)
Definition scalar_eqb (a b : value) : bool :=
  match a, b with
  | VNone, VNone => true
  | VBool x, VBool y => Bool.eqb x y
  | VInt x, VInt y => Z.eqb x y
  | VStr x, VStr y => String.eqb x y
  | _, _ => false
  end.

Definition upper (c : ascii) : ascii :=
  let n := nat_of_ascii c in
  if (97 <=? n)%nat && (n <=? 122)%nat then ascii_of_nat (n - 32) else c.

Definition is_tag_char (c : ascii) : bool :=
  let n := nat_of_ascii c in
  ((48 <=? n)%nat && (n <=? 57)%nat) || ((65 <=? n)%nat && (n <=? 90)%nat).

(** A tag normaliser: upper-case, keep letters and digits only, put the
    marker character in front. *)
Definition correct_tag (tag : string) : string :=
  String "#"
    (string_of_list_ascii
       (filter is_tag_char (map upper (list_ascii_of_string tag)))).

Definition label_cls (ldata : value) : value := ldata.
Definition Location_cls (data : value) : value := data.
Definition WarLeague_cls (data : value) : value := data.

Definition clan : Type := Clan value member value value.

(** Slots that have not been assigned: contents that no record gives. *)
Definition unset : clan :=
  {| type_ := VStr "unset"; description := VStr "unset";
     location := Some (VStr "unset");
     points := VStr "unset"; versus_points := VStr "unset";
     required_trophies := VStr "unset"; war_frequency := VStr "unset";
     war_win_streak := VStr "unset"; war_wins := VStr "unset";
     war_ties := VStr "unset"; war_losses := VStr "unset";
     public_war_log := VStr "unset"; member_count := VStr "unset";
     war_league := Some (VStr "unset");
     _labels := Some [VStr "unset"];
     _members :=
       Some [("unset", {| m_tag := "unset"; m_name := VNone;
                          m_level := VNone |})];
     iter_labels := [VStr "unset"]; iter_members := [VStr "unset"] |}.

Definition new (data : Dict.t value) : outcome clan :=
  Clan_new Location_cls WarLeague_cls unset data.
Definition run (os : list (op value)) (w : world value member value value)
  : world value member value value :=
  run_ops label_cls member_cls m_tag correct_tag getattr scalar_eqb os w.

Definition mk_member (tag name : string) (level : Z) : value :=
  VDict [("tag", VStr tag); ("name", VStr name); ("expLevel", VInt level)].

Definition labels1 : list value := [VStr "war"; VStr "farm"; VStr "war"].

Definition members1 : list value :=
  [ mk_member "#AAA" "ann" 125;
    mk_member "#BBB" "bob" 125;
    mk_member "#AAA" "cat" 90 ].

(** A record with a repeated label, a repeated member tag, a zero and a
    null. *)
Definition data1 : Dict.t value :=
  [ ("clanPoints", VInt 0);
    ("warWins", VNone);
    ("labels", VList labels1);
    ("memberList", VList members1) ].

Definition clan1 : clan :=
  match new data1 with
  | Ret c => c
  | Raise _ => Clan_alloc unset
  end.

(** A record of the kind a search gives: no labels, no member list. *)
Definition data0 : Dict.t value := [("clanPoints", VInt 3)].

Definition clan0 : clan :=
  match new data0 with
  | Ret c => c
  | Raise _ => Clan_alloc unset
  end.



End Sample.

(** * Properties *)

(** ** Dictionaries *)

Section DictFacts.
Variable V : Type.
Implicit Types (d : Dict.t V) (k : string) (v : V).

Lemma find_set_same k v d : Dict.find k (Dict.set k v d) = Some v.
Proof.
  induction d as [|[k' v'] d IH]; simpl.
  - now rewrite String.eqb_refl.
  - destruct (String.eqb k k') eqn:E; simpl; rewrite E; auto.
Qed.

Lemma find_set_other k k' v d :
  k' <> k -> Dict.find k' (Dict.set k v d) = Dict.find k' d.
Proof.
  intros Hne. induction d as [|[k0 v0] d IH]; simpl.
  - apply String.eqb_neq in Hne. now rewrite Hne.
  - destruct (String.eqb k k0) eqn:E; simpl.
    + apply String.eqb_eq in E. subst k0.
      apply String.eqb_neq in Hne. now rewrite Hne.
    + now rewrite IH.
Qed.

Lemma find_None_iff k d : Dict.find k d = None <-> ~ In k (Dict.keys d).
Proof.
  induction d as [|[k' v'] d IH]; simpl.
  - tauto.
  - destruct (String.eqb k k') eqn:E.
    + apply String.eqb_eq in E. subst. split; [discriminate | tauto].
    + apply String.eqb_neq in E. rewrite IH. split.
      * intros H [H1 | H1]; [congruence | tauto].
      * tauto.
Qed.

Lemma keys_set_old k v d :
  In k (Dict.keys d) -> Dict.keys (Dict.set k v d) = Dict.keys d.
Proof.
  induction d as [|[k' v'] d IH]; simpl; [tauto|].
  intros H. destruct (String.eqb k k') eqn:E; simpl; [reflexivity|].
  apply String.eqb_neq in E. f_equal. apply IH.
  destruct H; [congruence | assumption].
Qed.

Lemma keys_set_new k v d :
  ~ In k (Dict.keys d) -> Dict.keys (Dict.set k v d) = Dict.keys d ++ [k].
Proof.
  induction d as [|[k' v'] d IH]; simpl; [reflexivity|].
  intros H. destruct (String.eqb k k') eqn:E; simpl.
  - apply String.eqb_eq in E. subst. tauto.
  - f_equal. apply IH. tauto.
Qed.

Lemma set_not_nil k v d : Dict.set k v d <> [].
Proof.
  destruct d as [|[k' v'] d]; simpl; [discriminate|].
  destruct (String.eqb k k'); discriminate.
Qed.

(** With pairwise different keys, the value at a position is the value
    found under the key at that position. *)
Lemma nth_values_find d i k :
  NoDup (Dict.keys d) ->
  nth_error (Dict.keys d) i = Some k ->
  nth_error (Dict.values d) i = Dict.find k d.
Proof.
  revert i. induction d as [|[k' v'] d IH]; intros i Hnd Hi.
  - destruct i; discriminate.
  - simpl in Hnd. inversion Hnd as [|? ? Hnotin Hnd']; subst.
    destruct i as [|i]; simpl in *.
    + inversion Hi; subst. now rewrite String.eqb_refl.
    + destruct (String.eqb k k') eqn:E.
      * apply String.eqb_eq in E. subst k'.
        apply nth_error_In in Hi. contradiction.
      * now apply IH.
Qed.
End DictFacts.

(** ** First occurrences *)

Lemma first_occurrences_In (l : list string) (x : string) :
  In x (first_occurrences l) <-> In x l.
Proof.
  induction l as [|a l IH]; simpl; [tauto|].
  rewrite filter_In, IH. split.
  - intros [H | [H _]]; auto.
  - intros [H | H]; auto.
    destruct (String.eqb x a) eqn:E.
    + apply String.eqb_eq in E. auto.
    + right. split; [assumption | reflexivity].
Qed.

Lemma first_occurrences_NoDup (l : list string) : NoDup (first_occurrences l).
Proof.
  induction l as [|a l IH]; simpl; constructor.
  - rewrite filter_In. intros [_ H]. now rewrite String.eqb_refl in H.
  - now apply NoDup_filter.
Qed.

Lemma first_occurrences_snoc (l : list string) (x : string) :
  first_occurrences (l ++ [x]) =
  if in_dec string_dec x l then first_occurrences l
  else first_occurrences l ++ [x].
Proof.
  induction l as [|a l IH]; simpl; [reflexivity|].
  rewrite IH.
  destruct (in_dec string_dec x l) as [Hin | Hnin];
    destruct (string_dec a x) as [-> | Hax]; try reflexivity.
  - rewrite filter_app. simpl. rewrite String.eqb_refl. simpl.
    now rewrite app_nil_r.
  - rewrite filter_app. simpl.
    assert (E : String.eqb x a = false) by (apply String.eqb_neq; congruence).
    now rewrite E.
Qed.

Lemma first_occurrences_id (l : list string) :
  NoDup l -> first_occurrences l = l.
Proof.
  induction 1 as [|a l Hnotin Hnd IH]; simpl; [reflexivity|].
  rewrite IH. f_equal.
  apply forallb_filter_id. apply forallb_forall. intros y Hy.
  destruct (String.eqb y a) eqn:E; [|reflexivity].
  apply String.eqb_eq in E. subst. contradiction.
Qed.

Lemma first_occurrences_length (l : list string) :
  List.length (first_occurrences l) = List.length (nodup string_dec l).
Proof.
  apply Permutation_length, NoDup_Permutation.
  - apply first_occurrences_NoDup.
  - apply NoDup_nodup.
  - intros x. now rewrite first_occurrences_In, nodup_In.
Qed.

(** ** The dictionary comprehension [{m.tag: m for m in ms}] *)

Section ByTag.
Variable Member : Type.
Variable member_tag : Member -> string.

Local Abbreviation by_tag := (dict_by_tag member_tag).
Local Abbreviation last_with := (last_with_tag member_tag).

Lemma dict_by_tag_snoc (ms : list Member) (m : Member) :
  by_tag (ms ++ [m]) = Dict.set (member_tag m) m (by_tag ms).
Proof. unfold dict_by_tag. now rewrite fold_left_app. Qed.

Lemma dict_by_tag_keys (ms : list Member) :
  Dict.keys (by_tag ms) = first_occurrences (map member_tag ms).
Proof.
  induction ms as [|m ms IH] using rev_ind; [reflexivity|].
  rewrite dict_by_tag_snoc, map_app. simpl.
  rewrite first_occurrences_snoc.
  destruct (in_dec string_dec (member_tag m) (map member_tag ms)) as [H | H].
  - rewrite keys_set_old; [assumption|].
    rewrite IH. now apply first_occurrences_In.
  - rewrite keys_set_new; [now rewrite IH|].
    rewrite IH. now rewrite first_occurrences_In.
Qed.

Lemma last_with_tag_snoc (k : string) (ms : list Member) (m : Member) :
  last_with k (ms ++ [m]) =
  if String.eqb (member_tag m) k then Some m else last_with k ms.
Proof. unfold last_with_tag. rewrite rev_app_distr. reflexivity. Qed.

Lemma dict_by_tag_find (k : string) (ms : list Member) :
  Dict.find k (by_tag ms) = last_with k ms.
Proof.
  induction ms as [|m ms IH] using rev_ind; [reflexivity|].
  rewrite dict_by_tag_snoc, last_with_tag_snoc.
  destruct (String.eqb (member_tag m) k) eqn:E.
  - apply String.eqb_eq in E. subst k. apply find_set_same.
  - apply String.eqb_neq in E. rewrite find_set_other; [assumption|].
    congruence.
Qed.

Lemma dict_by_tag_nil (ms : list Member) : by_tag ms = [] -> ms = [].
Proof.
  destruct ms as [|m ms] using rev_ind; [reflexivity|].
  rewrite dict_by_tag_snoc. intros H. now apply set_not_nil in H.
Qed.

Lemma dict_by_tag_length (ms : list Member) :
  List.length (Dict.values (by_tag ms)) =
  List.length (nodup string_dec (map member_tag ms)).
Proof.
  rewrite <- first_occurrences_length, <- dict_by_tag_keys.
  unfold Dict.values, Dict.keys. now rewrite !length_map.
Qed.


Lemma last_with_tag_Some (k : string) (ms : list Member) (m : Member) :
  last_with k ms = Some m ->
  exists l1 l2, ms = l1 ++ m :: l2 /\ member_tag m = k /\
                forall y, In y l2 -> member_tag y <> k.
Proof.
  induction ms as [|a ms IH] using rev_ind; [discriminate|].
  rewrite last_with_tag_snoc.
  destruct (String.eqb (member_tag a) k) eqn:E.
  - intros H. inversion H; subst a. exists ms, [].
    apply String.eqb_eq in E. repeat split; auto.
  - intros H. destruct (IH H) as (l1 & l2 & -> & Hm & Hl2).
    exists l1, (l2 ++ [a]). rewrite <- app_assoc. repeat split; auto.
    intros y Hy. apply in_app_or in Hy. destruct Hy as [Hy | [<- | []]].
    + now apply Hl2.
    + now apply String.eqb_neq.
Qed.

Lemma values_set_new (k : string) (m : Member) (d : Dict.t Member) :
  ~ In k (Dict.keys d) -> Dict.values (Dict.set k m d) = Dict.values d ++ [m].
Proof.
  induction d as [|[k' v'] d IH]; simpl; [reflexivity|].
  intros H. destruct (String.eqb k k') eqn:E; simpl.
  - apply String.eqb_eq in E. subst. tauto.
  - f_equal. apply IH. tauto.
Qed.

Lemma dict_by_tag_values_NoDup (ms : list Member) :
  NoDup (map member_tag ms) -> Dict.values (by_tag ms) = ms.
Proof.
  induction ms as [|m ms IH] using rev_ind; [reflexivity|].
  rewrite map_app. simpl. intros Hnd.
  apply NoDup_remove in Hnd. rewrite app_nil_r in Hnd.
  destruct Hnd as [Hnd Hnotin].
  rewrite dict_by_tag_snoc, values_set_new.
  - now rewrite IH.
  - rewrite dict_by_tag_keys. now rewrite first_occurrences_In.
Qed.

Lemma dict_by_tag_tags (ms : list Member) :
  map member_tag (Dict.values (by_tag ms)) = Dict.keys (by_tag ms).
Proof.
  assert (H : Forall (fun kv => fst kv = member_tag (snd kv)) (by_tag ms)).
  { induction ms as [|m ms IH] using rev_ind; [constructor|].
    rewrite dict_by_tag_snoc. induction IH as [|[k v] d Hkv Hd IHd]; simpl.
    - repeat constructor.
    - destruct (String.eqb (member_tag m) k) eqn:E; constructor; auto.
      simpl. apply String.eqb_eq in E. congruence. }
  unfold Dict.values, Dict.keys. rewrite map_map.
  induction H as [|kv d Hkv Hd IH]; simpl; congruence.
Qed.
End ByTag.

(** ** Events *)

Lemma iter_count_app (c : coll) (tr tr' : list event) :
  iter_count c (tr ++ tr') = iter_count c tr + iter_count c tr'.
Proof. unfold iter_count. now rewrite filter_app, length_app. Qed.

Lemma constructed_app (c : coll) (tr tr' : list event) :
  constructed c (tr ++ tr') = constructed c tr ++ constructed c tr'.
Proof.
  induction tr as [|[c1 | c1 raw] tr IH]; simpl; auto.
  destruct c, c1; simpl; now rewrite IH.
Qed.

Lemma iter_count_drain (c c' : coll) (raws : list value) :
  iter_count c (EvIter c' :: map (EvNew c') raws) =
  match c, c' with Labels, Labels | Members, Members => 1 | _, _ => 0 end.
Proof.
  unfold iter_count.
  assert (H : filter (is_iter c) (map (EvNew c') raws) = []).
  { induction raws; simpl; auto. }
  destruct c, c'; simpl; now rewrite H.
Qed.

Lemma constructed_drain (c c' : coll) (raws : list value) :
  constructed c (EvIter c' :: map (EvNew c') raws) =
  match c, c' with Labels, Labels | Members, Members => raws | _, _ => [] end.
Proof.
  simpl. induction raws as [|r raws IH]; simpl.
  - now destruct c, c'.
  - destruct c, c'; simpl; now rewrite ?IH.
Qed.

(** ** The accessors of a clan *)

Section ClanFacts.
Variables Label Member Location WarLeague AttrVal : Type.
Variable label_cls : value -> Label.
Variable member_cls : value -> Member.
Variable Location_cls : value -> Location.
Variable WarLeague_cls : value -> WarLeague.
Variable member_tag : Member -> string.
Variable correct_tag : string -> string.
Variable getattr : Member -> string -> AttrVal.
Variable py_eq : AttrVal -> AttrVal -> bool.
(** What the slots of a new object hold before they are assigned. *)
Variable unset : Clan Label Member Location WarLeague.

Local Abbreviation clan := (Clan Label Member Location WarLeague).
Local Abbreviation world_ := (world Label Member Location WarLeague).
Local Abbreviation new_ := (Clan_new Location_cls WarLeague_cls unset).
Local Abbreviation labels_ :=
  (@labels Label Member Location WarLeague label_cls).
Local Abbreviation members_ :=
  (@members Label Member Location WarLeague member_cls member_tag).
Local Abbreviation get_member_ :=
  (@get_member Label Member Location WarLeague member_cls member_tag
     correct_tag).
Local Abbreviation get_member_by_ :=
  (@get_member_by Label Member Location WarLeague AttrVal member_cls
     member_tag getattr py_eq).
Local Abbreviation run_ :=
  (@run_ops Label Member Location WarLeague AttrVal label_cls member_cls
     member_tag correct_tag getattr py_eq).
Local Abbreviation inv_ :=
  (@inv Label Member Location WarLeague label_cls member_cls member_tag).
Local Abbreviation by_tag := (dict_by_tag member_tag).

Implicit Types (w : world_) (ls ms : list value) (c : clan).

Local Arguments Dict.find : simpl never.

Ltac unfold_m :=
  unfold labels, members, get_member, get_member_by, drain_labels,
    drain_members, try_except_KeyError, bind, gets, modify, ret, lift,
    on_self, emit, falsy in *.

Ltac trace_simpl :=
  rewrite ?iter_count_app, ?constructed_app, ?iter_count_drain,
    ?constructed_drain, ?Nat.add_0_r, ?app_nil_r in *.

Local Abbreviation cache_ := (members_cache member_cls member_tag).

Lemma labels_spec ls ms w :
  inv_ ls ms w ->
  exists w',
    labels_ w = (Ret (map label_cls ls), w') /\
    inv_ ls ms w' /\
    _labels (self w') = Some (map label_cls ls).
Proof.
  destruct w as [c tr]. unfold inv, labels_inv, members_inv. simpl.
  intros [HL HM]. unfold_m. simpl.
  destruct (_labels c) as [l|] eqn:E; simpl.
  - destruct HL as (-> & HL). eexists. split; [reflexivity|]. simpl.
    rewrite E. auto.
  - destruct HL as (Hit & Hcnt & Hcon). eexists. split.
    + rewrite Hit. reflexivity.
    + simpl. trace_simpl. rewrite ?Hit, ?Hcnt, ?Hcon. simpl.
      repeat split; auto.
Qed.

Lemma members_spec ls ms w :
  inv_ ls ms w ->
  exists w',
    members_ w = (Ret (Dict.values (cache_ ms)), w') /\
    inv_ ls ms w' /\
    _members (self w') = Some (cache_ ms).
Proof.
  destruct w as [c tr]. unfold inv, labels_inv, members_inv. simpl.
  intros [HL HM]. unfold_m. simpl.
  destruct (_members c) as [d|] eqn:E; simpl.
  - destruct HM as (-> & HM). eexists. split; [reflexivity|]. simpl.
    rewrite E. auto.
  - destruct HM as (Hit & Hcnt & Hcon). eexists. split.
    + rewrite Hit. reflexivity.
    + simpl. trace_simpl. rewrite ?Hit, ?Hcnt, ?Hcon. simpl.
      repeat split; auto.
Qed.

Lemma get_member_spec ls ms w tag :
  inv_ ls ms w ->
  exists w',
    get_member_ tag w =
      (Ret (Dict.find (correct_tag tag) (cache_ ms)), w') /\
    inv_ ls ms w' /\
    _members (self w') = Some (cache_ ms).
Proof.
  destruct w as [c tr]. unfold inv, labels_inv, members_inv. simpl.
  intros [HL HM]. unfold_m. unfold Dict.getitem. simpl.
  destruct (_members c) as [d|] eqn:E; simpl.
  - destruct HM as (Hd & Hit & Hcnt & Hone & Hcon).
    destruct d as [|kv d]; simpl.
    + (* an empty cache is taken for a missing one *)
      assert (Hms : ms = []).
      { symmetry in Hd. apply dict_by_tag_nil in Hd.
        now apply map_eq_nil in Hd. }
      rewrite Hms in *. rewrite Hit. simpl.
      eexists. split; [reflexivity|]. simpl. trace_simpl.
      repeat split; auto; try lia. congruence.
    + rewrite <- Hd.
      destruct (Dict.find (correct_tag tag) (kv :: d));
        eexists; (split; [reflexivity|]); simpl; rewrite E;
        repeat split; auto.
  - destruct HM as (Hit & Hcnt & Hcon). rewrite Hit.
    unfold members_cache.
    destruct (Dict.find (correct_tag tag) (by_tag (map member_cls ms)));
      eexists; (split; [reflexivity|]); simpl; trace_simpl;
      rewrite ?Hcnt, ?Hcon; simpl; repeat split; auto.
Qed.

Lemma get_member_by_spec ls ms w attrs :
  inv_ ls ms w ->
  exists w',
    get_member_by_ attrs w =
      (Ret (get getattr py_eq (Dict.values (cache_ ms)) attrs), w') /\
    inv_ ls ms w' /\
    _members (self w') = Some (cache_ ms).
Proof.
  intros H. destruct (members_spec H) as (w' & Hm & Hinv & Hc).
  exists w'. unfold get_member_by, bind. rewrite Hm. auto.
Qed.

Lemma run_op_inv ls ms w o :
  inv_ ls ms w ->
  inv_ ls ms (run_op label_cls member_cls member_tag correct_tag getattr
                py_eq o w).
Proof.
  intros H. destruct o as [| | tag | attrs]; simpl.
  - destruct (labels_spec H) as (w' & -> & ? & _). assumption.
  - destruct (members_spec H) as (w' & -> & ? & _). assumption.
  - destruct (get_member_spec tag H) as (w' & -> & ? & _). assumption.
  - destruct (get_member_by_spec attrs H) as (w' & -> & ? & _). assumption.
Qed.

Lemma run_ops_inv ls ms os w : inv_ ls ms w -> inv_ ls ms (run_ os w).
Proof.
  revert w. induction os as [|o os IH]; intros w H; simpl; [assumption|].
  apply IH. now apply run_op_inv.
Qed.

(** A clan that has just been constructed. *)
Lemma Clan_new_inv data c :
  new_ data = Ret c ->
  exists ls ms,
    py_iter (data_get_or data "labels" (VList [])) = Ret ls /\
    py_iter (data_get_or data "memberList" (VList [])) = Ret ms /\
    c = set_iter_members ms
          (set_iter_labels ls
             (assign_scalars Location_cls WarLeague_cls data
                (Clan_alloc unset))) /\
    inv_ ls ms (fresh c).
Proof.
  unfold Clan_new, Clan__from_data, bind, modify, lift. simpl.
  destruct (py_iter (data_get_or data "labels" (VList []))) as [ls|] eqn:EL;
    [|discriminate].
  destruct (py_iter (data_get_or data "memberList" (VList []))) as [ms|] eqn:EM;
    [|discriminate].
  intros H. inversion H; subst c. exists ls, ms.
  repeat split; reflexivity.
Qed.

(** *** Lookups by tag *)

(** Whatever state the clan is in, [get_member] ends with a dictionary in
    the members cache and answers with what that dictionary holds under
    the corrected tag. *)
Lemma get_member_lookup w tag :
  exists d w',
    get_member_ tag w = (Ret (Dict.find (correct_tag tag) d), w') /\
    _members (self w') = Some d.
Proof.
  destruct w as [c tr]. unfold_m. unfold Dict.getitem. simpl.
  destruct (_members c) as [[|kv d]|] eqn:E; simpl.
  - exists (by_tag (map member_cls (iter_members c))).
    destruct (Dict.find _ _); eexists; split; reflexivity.
  - exists (kv :: d).
    destruct (Dict.find _ _); eexists; split; simpl; auto.
  - exists (by_tag (map member_cls (iter_members c))).
    destruct (Dict.find _ _); eexists; split; reflexivity.
Qed.

(** C5: [get_member] corrects the tag it is given before it looks the
    member up: the answer is the entry of the members cache under
    [correct_tag tag], and, [correct_tag] being idempotent, a tag and its
    corrected form get the same answer and leave the same state. *)
Theorem get_member_corrects_tag w tag :
  (forall t, correct_tag (correct_tag t) = correct_tag t) ->
  get_member_ tag w = get_member_ (correct_tag tag) w /\
  exists d w',
    get_member_ tag w = (Ret (Dict.find (correct_tag tag) d), w') /\
    _members (self w') = Some d.
Proof.
  intros Hidem. split; [|apply get_member_lookup].
  unfold get_member. now rewrite Hidem.
Qed.

(** C6: [get_member] never raises; when the members cache it ends with is
    empty, or has no entry under the corrected tag, the answer is
    [None]. *)
Theorem get_member_not_found w tag :
  exists r d w',
    get_member_ tag w = (Ret r, w') /\
    _members (self w') = Some d /\
    (d = [] \/ ~ In (correct_tag tag) (Dict.keys d) -> r = None).
Proof.
  destruct (get_member_lookup w tag) as (d & w' & Hget & Hd).
  exists (Dict.find (correct_tag tag) d), d, w'.
  repeat split; auto.
  intros [-> | Hnotin]; [reflexivity|].
  now apply find_None_iff.
Qed.

(** *** Lookups by attributes *)

Lemma find_first {A : Type} (p : A -> bool) (l : list A) :
  match List.find p l with
  | Some x =>
      exists l1 l2, l = l1 ++ x :: l2 /\ p x = true /\
                    forall y, In y l1 -> p y = false
  | None => forall y, In y l -> p y = false
  end.
Proof.
  induction l as [|a l IH]; simpl.
  - intros y [].
  - destruct (p a) eqn:E.
    + exists [], l. repeat split; auto. intros y [].
    + destruct (List.find p l) as [x|].
      * destruct IH as (l1 & l2 & -> & Hx & Hl1).
        exists (a :: l1), l2. repeat split; auto.
        intros y [<- | Hy]; auto.
      * intros y [<- | Hy]; auto.
Qed.

(** C4: [get_member_by] fills the members cache when it is still [None]
    and answers with the first member, in the order of the cache, whose
    supplied attributes all equal the expected values; members in front of
    it do not match, and the answer is [None] exactly when no member
    matches. *)
Theorem get_member_by_first_match w attrs :
  exists mems d w',
    members_ w = (Ret mems, w') /\
    _members (self w') = Some d /\ mems = Dict.values d /\
    match get_member_by_ attrs w with
    | (Ret (Some m), w'') =>
        w'' = w' /\
        exists l1 l2,
          mems = l1 ++ m :: l2 /\
          predicate getattr py_eq attrs m = true /\
          forall y, In y l1 -> predicate getattr py_eq attrs y = false
    | (Ret None, w'') =>
        w'' = w' /\
        forall y, In y mems -> predicate getattr py_eq attrs y = false
    | (Raise _, _) => False
    end.
Proof.
  assert (Hm : exists d w', members_ w = (Ret (Dict.values d), w') /\
                            _members (self w') = Some d).
  { destruct w as [c tr]. unfold_m. simpl.
    destruct (_members c) as [d|] eqn:E; simpl.
    - exists d. eexists. split; [reflexivity | assumption].
    - eexists. eexists. split; reflexivity. }
  destruct Hm as (d & w' & Hm & Hd).
  exists (Dict.values d), d, w'. repeat split; auto.
  unfold get_member_by, bind. rewrite Hm. unfold ret, get.
  pose proof (find_first (predicate getattr py_eq attrs) (Dict.values d)) as H.
  destruct (List.find _ _) as [m|]; auto.
Qed.

(** *** How often the pending generators are consumed *)

(** C1, on a clan built from an empty record: the first [get_member]
    leaves an empty dictionary in the members cache, and the second one
    takes it for a missing cache and runs the comprehension over the
    members generator again, while two reads of [members] consume the
    generator once. *)
Theorem get_member_iterates_again_on_empty tag1 tag2 :
  exists c,
    new_ [] = Ret c /\
    _members (self (run_ [OpGetMember tag1] (fresh c))) = Some [] /\
    iter_count Members
      (trace (run_ [OpGetMember tag1; OpGetMember tag2] (fresh c))) = 2 /\
    iter_count Members (trace (run_ [OpMembers; OpMembers] (fresh c))) = 1.
Proof. eexists. repeat split; reflexivity. Qed.

(** X3: on a clan built from a record, after any calls, the labels
    generator has been consumed at most once, and the labels built so far
    are none or exactly the elements of the labels array, each once. *)
Lemma labels_consumed_at_most_once data c os :
  new_ data = Ret c ->
  let tr := trace (run_ os (fresh c)) in
  iter_count Labels tr <= 1 /\
  exists ls,
    py_iter (data_get_or data "labels" (VList [])) = Ret ls /\
    (constructed Labels tr = [] \/ constructed Labels tr = ls).
Proof.
  intros Hnew. apply Clan_new_inv in Hnew as (ls & ms & HL & _ & _ & Hinv).
  apply (run_ops_inv os) in Hinv. destruct Hinv as [Hl _].
  unfold labels_inv in Hl. simpl.
  destruct (_labels _); [destruct Hl as (_ & _ & -> & Hc)
                        | destruct Hl as (_ & -> & Hc)];
    (split; [lia | exists ls; auto]).
Qed.

(** X4: on a clan built from a record, after any calls, the members built
    so far are none or exactly the elements of the member array, each once,
    and a members generator over at least one sub-record has been consumed
    at most once. *)
Lemma members_built_at_most_once data c os :
  new_ data = Ret c ->
  let tr := trace (run_ os (fresh c)) in
  exists ms,
    py_iter (data_get_or data "memberList" (VList [])) = Ret ms /\
    (constructed Members tr = [] \/ constructed Members tr = ms) /\
    (ms <> [] -> iter_count Members tr <= 1).
Proof.
  intros Hnew. apply Clan_new_inv in Hnew as (ls & ms & _ & HM & _ & Hinv).
  apply (run_ops_inv os) in Hinv. destruct Hinv as [_ Hm].
  unfold members_inv in Hm. simpl. exists ms. split; [assumption|].
  destruct (_members _).
  - destruct Hm as (_ & _ & _ & Hone & Hc). split; [auto|].
    intros Hne. rewrite (Hone Hne). lia.
  - destruct Hm as (_ & -> & ->). split; [auto | lia].
Qed.

(** *** Reading the collections *)

(** C3: on a clan built from a record, after any calls, a read of
    [labels] gives the same list as every later read, whatever is called
    in between, and so does a read of [members]. *)
Theorem labels_members_repeatable data c before between :
  new_ data = Ret c ->
  let w := run_ before (fresh c) in
  fst (labels_ (run_ between (snd (labels_ w)))) = fst (labels_ w) /\
  fst (members_ (run_ between (snd (members_ w)))) = fst (members_ w).
Proof.
  intros Hnew w. apply Clan_new_inv in Hnew as (ls & ms & _ & _ & _ & Hinv).
  apply (run_ops_inv before) in Hinv. fold w in Hinv. split.
  - destruct (labels_spec Hinv) as (w1 & E1 & Hinv1 & _). rewrite E1.
    apply (run_ops_inv between) in Hinv1.
    destruct (labels_spec Hinv1) as (w2 & E2 & _). simpl. now rewrite E2.
  - destruct (members_spec Hinv) as (w1 & E1 & Hinv1 & _). rewrite E1.
    apply (run_ops_inv between) in Hinv1.
    destruct (members_spec Hinv1) as (w2 & E2 & _). simpl. now rewrite E2.
Qed.

(** C8: for a clan built from a record whose ["labels"] entry is an
    array, [labels] gives one label per element of the array, in the order
    of the array, repeated elements included. *)
Theorem labels_keep_source_order data c items os :
  new_ data = Ret c ->
  data_get_or data "labels" (VList []) = VList items ->
  exists l,
    fst (labels_ (run_ os (fresh c))) = Ret l /\
    l = map label_cls items /\
    List.length l = List.length items /\
    forall i, nth_error l i = option_map label_cls (nth_error items i).
Proof.
  intros Hnew Hitems.
  apply Clan_new_inv in Hnew as (ls & ms & HL & _ & _ & Hinv).
  rewrite Hitems in HL. simpl in HL. inversion HL; subst ls.
  apply (run_ops_inv os) in Hinv.
  destruct (labels_spec Hinv) as (w' & E & _).
  exists (map label_cls items). rewrite E. repeat split.
  - apply length_map.
  - intros i. apply nth_error_map.
Qed.


(** C10: for a clan built from a record whose ["memberList"] entry is an
    array, the tags of [members] are the different tags of the array in
    the order of their first occurrence, the member at the place of a tag
    is the one built from the last element carrying that tag, and with
    pairwise different tags [members] is the array's members in the
    array's order. *)
Theorem members_order data c items os :
  new_ data = Ret c ->
  data_get_or data "memberList" (VList []) = VList items ->
  let built := map member_cls items in
  exists mems,
    fst (members_ (run_ os (fresh c))) = Ret mems /\
    map member_tag mems = first_occurrences (map member_tag built) /\
    (forall i k,
       nth_error (first_occurrences (map member_tag built)) i = Some k ->
       nth_error mems i = last_with_tag member_tag k built) /\
    (NoDup (map member_tag built) -> mems = built).
Proof.
  intros Hnew Hitems built.
  apply Clan_new_inv in Hnew as (ls & ms & _ & HM & _ & Hinv).
  rewrite Hitems in HM. simpl in HM. inversion HM; subst ms.
  apply (run_ops_inv os) in Hinv.
  destruct (members_spec Hinv) as (w' & E & _). rewrite E.
  eexists. split; [reflexivity|]. unfold members_cache. fold built.
  split; [|split].
  - now rewrite dict_by_tag_tags, dict_by_tag_keys.
  - intros i k Hi. rewrite <- dict_by_tag_keys in Hi.
    rewrite (nth_values_find _ i (k := k)); auto.
    + apply dict_by_tag_find.
    + rewrite dict_by_tag_keys. apply first_occurrences_NoDup.
  - apply dict_by_tag_values_NoDup.
Qed.

(** *** Construction *)

(** C9: a clan is built from the empty record without an exception,
    whatever its slots held before they were assigned; each of its plain
    fields is [None], and [labels] and [members] are empty. *)
Theorem Clan_of_empty_record :
  exists c,
    new_ [] = Ret c /\
    (type_ c = VNone /\ description c = VNone /\ location c = None /\
     points c = VNone /\ versus_points c = VNone /\
     required_trophies c = VNone /\ war_frequency c = VNone /\
     war_win_streak c = VNone /\ war_wins c = VNone /\ war_ties c = VNone /\
     war_losses c = VNone /\ public_war_log c = VNone /\
     member_count c = VNone /\ war_league c = None) /\
    fst (labels_ (fresh c)) = Ret [] /\
    fst (members_ (fresh c)) = Ret [].
Proof. eexists. repeat split; reflexivity. Qed.

Local Abbreviation from_data_ :=
  (@Clan__from_data Label Member Location WarLeague Location_cls
     WarLeague_cls).
Local Abbreviation scalars_ := (Clan_scalars Label Member Location WarLeague).
Local Abbreviation alloc_ := (Clan_alloc unset).

(** Whether or not [_from_data] gets past the creation of the two
    generators, it has assigned the plain fields by then. *)
Lemma from_data_plain_fields data self0 :
  let c := snd (from_data_ data self0) in
  (forall k f, In (k, f) scalars_ -> f c = data_get data k) /\
  location c = try_enum Location_cls (data_get data "location") /\
  war_league c = try_enum WarLeague_cls (data_get data "warLeague").
Proof.
  unfold Clan__from_data, bind, modify, lift. simpl.
  destruct (py_iter (data_get_or data "labels" (VList []))) as [ls|e1];
    [destruct (py_iter (data_get_or data "memberList" (VList [])))
       as [ms|e2]|];
    simpl; (split; [|split; reflexivity]);
    intros k f Hin; simpl in Hin;
    repeat (destruct Hin as [Hin | Hin];
            [inversion Hin; subst; reflexivity|]);
    destruct Hin.
Qed.

Lemma Clan_new_from_data data :
  (forall c, new_ data = Ret c -> c = snd (from_data_ data alloc_)) /\
  (forall ls ms,
     py_iter (data_get_or data "labels" (VList [])) = Ret ls ->
     py_iter (data_get_or data "memberList" (VList [])) = Ret ms ->
     new_ data = Ret (snd (from_data_ data alloc_))).
Proof.
  unfold Clan_new, Clan__from_data, bind, modify, lift. simpl. split.
  - intros c.
    destruct (py_iter (data_get_or data "labels" (VList []))) as [ls|e1];
      [destruct (py_iter (data_get_or data "memberList" (VList [])))
         as [ms|e2]|];
      simpl; congruence.
  - intros ls ms -> ->. reflexivity.
Qed.

(** C7: when a record has no entry under a key, or holds [None] under it,
    the field read from that key is [None], in a [RankedClan] and in a
    [Clan] alike, and whatever the record holds under other keys:
    a plain field holds exactly what the record holds under its own key,
    [location] and [war_league] are [None] for an absent sub-record, and a
    [Clan] is built whenever the entries for labels and members can be
    iterated. *)
Theorem absent_key_gives_None data k :
  Dict.find k data = None \/ Dict.find k data = Some VNone ->
  let rc := RankedClan__from_data Location_cls data in
  ((forall f, In (k, f) (RankedClan_scalars Location) -> f rc = VNone) /\
   (k = "location" -> rc_location rc = None) /\
   (forall k' f', In (k', f') (RankedClan_scalars Location) ->
                  f' rc = data_get data k')) /\
  (forall self0,
     let c := snd (from_data_ data self0) in
     (forall f, In (k, f) scalars_ -> f c = VNone) /\
     (k = "location" -> location c = None) /\
     (k = "warLeague" -> war_league c = None) /\
     (forall k' f', In (k', f') scalars_ -> f' c = data_get data k')) /\
  (forall c, new_ data = Ret c -> c = snd (from_data_ data alloc_)) /\
  (forall ls ms,
     py_iter (data_get_or data "labels" (VList [])) = Ret ls ->
     py_iter (data_get_or data "memberList" (VList [])) = Ret ms ->
     new_ data = Ret (snd (from_data_ data alloc_))).
Proof.
  intros Hk rc.
  assert (Hget : data_get data k = VNone).
  { unfold data_get. destruct Hk as [-> | ->]; reflexivity. }
  assert (Hrc : forall k' f', In (k', f') (RankedClan_scalars Location) ->
                              f' rc = data_get data k').
  { intros k' f' Hin. simpl in Hin.
    repeat (destruct Hin as [Hin | Hin];
            [inversion Hin; subst; reflexivity|]).
    destruct Hin. }
  split; [|split].
  - split; [|split; [|exact Hrc]].
    + intros f Hin. rewrite (Hrc _ _ Hin). exact Hget.
    + intros ->. simpl. now rewrite Hget.
  - intros self0 c.
    destruct (from_data_plain_fields data self0) as (Hs & Hloc & Hwl).
    fold c in Hs, Hloc, Hwl. repeat split.
    + intros f Hin. rewrite (Hs _ _ Hin). exact Hget.
    + intros ->. rewrite Hloc. now rewrite Hget.
    + intros ->. rewrite Hwl. now rewrite Hget.
    + exact Hs.
  - apply Clan_new_from_data.
Qed.
End ClanFacts.

(** ** The accessors on concrete records *)

Lemma sample_upper_tag_char (c : ascii) :
  Sample.is_tag_char c = true -> Sample.upper c = c.
Proof.
  destruct c as [[] [] [] [] [] [] [] []]; vm_compute; intros H;
    solve [reflexivity | discriminate H].
Qed.

Lemma sample_correct_tag_idem (t : string) :
  Sample.correct_tag (Sample.correct_tag t) = Sample.correct_tag t.
Proof.
  unfold Sample.correct_tag. f_equal. f_equal.
  simpl list_ascii_of_string. rewrite list_ascii_of_string_of_list_ascii.
  set (l := list_ascii_of_string t). simpl.
  induction (map Sample.upper l) as [|a u IH]; simpl; [reflexivity|].
  destruct (Sample.is_tag_char a) eqn:E; simpl; [|assumption].
  rewrite (sample_upper_tag_char _ E), E. now rewrite IH.
Qed.

Lemma get_member_corrects_tag_witness :
  (forall t, Sample.correct_tag (Sample.correct_tag t) = Sample.correct_tag t) /\
  get_member Sample.member_cls Sample.m_tag Sample.correct_tag " #aaa "
    (fresh Sample.clan1) =
  get_member Sample.member_cls Sample.m_tag Sample.correct_tag
    (Sample.correct_tag " #aaa ") (fresh Sample.clan1).
Proof.
  split; [exact sample_correct_tag_idem|].
  apply get_member_corrects_tag. exact sample_correct_tag_idem.
Defined.

Lemma labels_members_repeatable_witness :
  Sample.new Sample.data1 = Ret Sample.clan1 /\
  let w := Sample.run [OpGetMember "x"] (fresh Sample.clan1) in
  let between := [OpGetMember "#AAA"; OpGetMemberBy [("level", VInt 90)];
                  OpLabels; OpMembers] in
  fst (labels Sample.label_cls
         (Sample.run between (snd (labels Sample.label_cls w)))) =
  fst (labels Sample.label_cls w) /\
  fst (members Sample.member_cls Sample.m_tag
         (Sample.run between
            (snd (members Sample.member_cls Sample.m_tag w)))) =
  fst (members Sample.member_cls Sample.m_tag w).
Proof.
  split; [reflexivity|].
  apply labels_members_repeatable
    with (Location_cls := Sample.Location_cls)
         (WarLeague_cls := Sample.WarLeague_cls) (unset := Sample.unset)
         (data := Sample.data1).
  reflexivity.
Defined.

Lemma labels_keep_source_order_witness :
  Sample.new Sample.data1 = Ret Sample.clan1 /\
  data_get_or Sample.data1 "labels" (VList []) = VList Sample.labels1 /\
  exists l,
    fst (labels Sample.label_cls
           (Sample.run [OpMembers; OpLabels] (fresh Sample.clan1))) = Ret l /\
    l = map Sample.label_cls Sample.labels1 /\
    List.length l = List.length Sample.labels1 /\
    forall i,
      nth_error l i = option_map Sample.label_cls (nth_error Sample.labels1 i).
Proof.
  split; [reflexivity | split; [reflexivity|]].
  apply labels_keep_source_order
    with (Location_cls := Sample.Location_cls)
         (WarLeague_cls := Sample.WarLeague_cls) (unset := Sample.unset)
         (data := Sample.data1);
    reflexivity.
Defined.



Lemma members_order_witness :
  Sample.new Sample.data1 = Ret Sample.clan1 /\
  data_get_or Sample.data1 "memberList" (VList []) = VList Sample.members1 /\
  let built := map Sample.member_cls Sample.members1 in
  exists mems,
    fst (members Sample.member_cls Sample.m_tag
           (Sample.run [OpGetMember "x"] (fresh Sample.clan1))) = Ret mems /\
    map Sample.m_tag mems = first_occurrences (map Sample.m_tag built) /\
    (forall i k,
       nth_error (first_occurrences (map Sample.m_tag built)) i = Some k ->
       nth_error mems i = last_with_tag Sample.m_tag k built) /\
    (NoDup (map Sample.m_tag built) -> mems = built).
Proof.
  split; [reflexivity | split; [reflexivity|]].
  apply members_order
    with (Location_cls := Sample.Location_cls)
         (WarLeague_cls := Sample.WarLeague_cls) (unset := Sample.unset)
         (data := Sample.data1);
    reflexivity.
Defined.

Lemma absent_key_gives_None_witness :
  (Dict.find "warWins" Sample.data1 = None \/
   Dict.find "warWins" Sample.data1 = Some VNone) /\
  war_wins Sample.clan1 = VNone /\
  points Sample.clan1 = VInt 0.
Proof.
  split; [right; reflexivity|].
  destruct (@absent_key_gives_None value Sample.member value value
              Sample.Location_cls Sample.WarLeague_cls Sample.unset
              Sample.data1 "warWins"
              (or_intror eq_refl))
    as (_ & Hclan & Hnew & _).
  rewrite (Hnew Sample.clan1 eq_refl).
  destruct (Hclan (Clan_alloc Sample.unset))
    as (Hnone & _ & _ & Hown).
  split.
  - apply (Hnone (@war_wins _ _ _ _)). simpl. tauto.
  - apply (Hown "clanPoints" (@points _ _ _ _)). simpl. tauto.
Defined.

(** A record whose ["labels"] entry is [None] gives no clan: creating the
    labels generator raises. *)
Example Clan_new_null_labels :
  Sample.new [("labels", VNone)] = Raise TypeError.
Proof. reflexivity. Qed.

(** With a repeated tag, the member that took over the first place decides
    whether that place matches. *)
Example get_member_by_level_125 :
  fst (get_member_by Sample.member_cls Sample.m_tag Sample.getattr
         Sample.scalar_eqb [("level", VInt 125)] (fresh Sample.clan1)) =
  Ret (Some (Sample.member_cls (Sample.mk_member "#BBB" "bob" 125))).
Proof. reflexivity. Qed.

(** * Further properties of the accessors *)

(** ** Dictionaries built by tag, continued *)

Section ByTagMore.
Variable Member : Type.
Variable member_tag : Member -> string.

Local Abbreviation by_tag := (dict_by_tag member_tag).

Lemma find_Some_In (k : string) (m : Member) (d : Dict.t Member) :
  NoDup (Dict.keys d) -> (Dict.find k d = Some m <-> In (k, m) d).
Proof.
  induction d as [|[k' v'] d IH]; simpl; intros Hnd.
  - split; [discriminate | tauto].
  - inversion Hnd as [|? ? Hnotin Hnd']; subst.
    destruct (String.eqb k k') eqn:E.
    + apply String.eqb_eq in E. subst k'. split.
      * intros H. inversion H. now left.
      * intros [H | H]; [now inversion H|].
        exfalso. apply Hnotin. unfold Dict.keys.
        change k with (fst (k, m)). now apply in_map.
    + apply String.eqb_neq in E. rewrite (IH Hnd'). split; [tauto|].
      intros [H | H]; [inversion H; congruence | assumption].
Qed.

Lemma dict_by_tag_entries (ms : list Member) :
  Forall (fun kv => fst kv = member_tag (snd kv)) (by_tag ms).
Proof.
  induction ms as [|m ms IH] using rev_ind; [constructor|].
  rewrite dict_by_tag_snoc. induction IH as [|[k v] d Hkv Hd IHd]; simpl.
  - repeat constructor.
  - destruct (String.eqb (member_tag m) k) eqn:E; constructor; auto.
    simpl. apply String.eqb_eq in E. congruence.
Qed.

Lemma dict_by_tag_keys_NoDup (ms : list Member) : NoDup (Dict.keys (by_tag ms)).
Proof. rewrite dict_by_tag_keys. apply first_occurrences_NoDup. Qed.

(** A member is a value of the dictionary exactly when it is what the
    dictionary holds under the member's own tag. *)
Lemma dict_by_tag_values_find (ms : list Member) (m : Member) :
  In m (Dict.values (by_tag ms)) <->
  Dict.find (member_tag m) (by_tag ms) = Some m.
Proof.
  rewrite find_Some_In by apply dict_by_tag_keys_NoDup.
  pose proof (dict_by_tag_entries ms) as Hent.
  rewrite Forall_forall in Hent. unfold Dict.values. split.
  - intros H. apply in_map_iff in H. destruct H as ([k v] & Hv & Hin).
    simpl in Hv. subst v. specialize (Hent _ Hin). simpl in Hent.
    now rewrite <- Hent.
  - intros H. change m with (snd (member_tag m, m)). now apply in_map.
Qed.

Lemma dict_by_tag_values_incl (ms : list Member) (m : Member) :
  In m (Dict.values (by_tag ms)) -> In m ms.
Proof.
  rewrite dict_by_tag_values_find, dict_by_tag_find. intros H.
  apply last_with_tag_Some in H. destruct H as (l1 & l2 & -> & _).
  apply in_elt.
Qed.
End ByTagMore.

Lemma nodup_length_le (l : list string) :
  List.length (nodup string_dec l) <= List.length l.
Proof.
  apply NoDup_incl_length; [apply NoDup_nodup|].
  intros x Hx. now apply nodup_In in Hx.
Qed.

Lemma nodup_length_eq (l : list string) :
  List.length (nodup string_dec l) = List.length l <-> NoDup l.
Proof.
  split.
  - intros H. apply NoDup_incl_NoDup with (l := nodup string_dec l).
    + apply NoDup_nodup.
    + lia.
    + intros x Hx. now apply nodup_In in Hx.
  - intros H. now rewrite nodup_fixed_point.
Qed.

(** ** The accessors, continued *)

Section ClanMore.
Variables Label Member Location WarLeague AttrVal : Type.
Variable label_cls : value -> Label.
Variable member_cls : value -> Member.
Variable Location_cls : value -> Location.
Variable WarLeague_cls : value -> WarLeague.
Variable member_tag : Member -> string.
Variable correct_tag : string -> string.
Variable getattr : Member -> string -> AttrVal.
Variable py_eq : AttrVal -> AttrVal -> bool.
Variable unset : Clan Label Member Location WarLeague.

Local Abbreviation clan := (Clan Label Member Location WarLeague).
Local Abbreviation world_ := (world Label Member Location WarLeague).
Local Abbreviation new_ := (Clan_new Location_cls WarLeague_cls unset).
Local Abbreviation labels_ :=
  (@labels Label Member Location WarLeague label_cls).
Local Abbreviation members_ :=
  (@members Label Member Location WarLeague member_cls member_tag).
Local Abbreviation get_member_ :=
  (@get_member Label Member Location WarLeague member_cls member_tag
     correct_tag).
Local Abbreviation get_member_by_ :=
  (@get_member_by Label Member Location WarLeague AttrVal member_cls
     member_tag getattr py_eq).
Local Abbreviation run_op_ :=
  (@run_op Label Member Location WarLeague AttrVal label_cls member_cls
     member_tag correct_tag getattr py_eq).
Local Abbreviation run_ :=
  (@run_ops Label Member Location WarLeague AttrVal label_cls member_cls
     member_tag correct_tag getattr py_eq).
Local Abbreviation inv_ :=
  (@inv Label Member Location WarLeague label_cls member_cls member_tag).
Local Abbreviation cache_ := (members_cache member_cls member_tag).
Local Abbreviation new_inv_ :=
  (@Clan_new_inv Label Member Location WarLeague label_cls member_cls
     Location_cls WarLeague_cls member_tag unset).
Local Abbreviation ops_inv_ := (run_ops_inv correct_tag getattr py_eq).

(** Everything that belongs to one of the two collections: its cache, its
    generator, and the events about it. *)
Local Abbreviation labels_part w :=
  (_labels (self w), iter_labels (self w),
   iter_count Labels (trace w), constructed Labels (trace w)).
Local Abbreviation members_part w :=
  (_members (self w), iter_members (self w),
   iter_count Members (trace w), constructed Members (trace w)).

Implicit Types (w : world_) (ls ms : list value) (c : clan).

Local Arguments Dict.find : simpl never.

Ltac unfold_acc :=
  unfold run_op, get_member_by in *;
  unfold labels, members, get_member, drain_labels,
    drain_members, try_except_KeyError, bind, gets, modify, ret, lift,
    on_self, emit, falsy, Dict.getitem in *.

Ltac events_simpl :=
  rewrite ?iter_count_app, ?constructed_app, ?iter_count_drain,
    ?constructed_drain, ?Nat.add_0_r, ?app_nil_r in *.

Lemma run_ops_snoc os o w : run_ (os ++ [o]) w = run_op_ o (run_ os w).
Proof. unfold run_ops. now rewrite fold_left_app. Qed.

Lemma run_ops_cons os o w : run_ (o :: os) w = run_ os (run_op_ o w).
Proof. reflexivity. Qed.

(** *** The two collections do not touch each other *)

Lemma labels_frame w : members_part (snd (labels_ w)) = members_part w.
Proof.
  destruct w as [c tr]. unfold_acc. simpl.
  destruct (_labels c); simpl; events_simpl; reflexivity.
Qed.

Lemma member_op_frame o w :
  o <> OpLabels -> labels_part (run_op_ o w) = labels_part w.
Proof.
  intros Ho. destruct w as [c tr].
  destruct o as [| | tag | attrs]; [congruence| | |]; unfold_acc; simpl.
  - destruct (_members c); simpl; events_simpl; reflexivity.
  - destruct (_members c) as [[|kv d]|]; simpl;
      destruct (Dict.find _ _); simpl; events_simpl; reflexivity.
  - destruct (_members c); simpl; events_simpl; reflexivity.
Qed.

(** X1: reading [labels], any number of times, leaves the members cache and
    the members generator as they are and builds no member. *)
Theorem labels_reads_leave_members w os :
  (forall o, In o os -> o = OpLabels) ->
  _members (self (run_ os w)) = _members (self w) /\
  iter_members (self (run_ os w)) = iter_members (self w) /\
  iter_count Members (trace (run_ os w)) = iter_count Members (trace w) /\
  constructed Members (trace (run_ os w)) = constructed Members (trace w).
Proof.
  intros Hall.
  assert (H : members_part (run_ os w) = members_part w).
  { revert w. induction os as [|o os IH]; intros w; [reflexivity|].
    rewrite run_ops_cons, IH by (intros o' Ho'; apply Hall; now right).
    rewrite (Hall o) by now left. apply labels_frame. }
  inversion H. auto.
Qed.

(** X2: [members], [get_member] and [get_member_by], in any number and
    order, leave the labels cache and the labels generator as they are and
    build no label. *)
Theorem member_reads_leave_labels w os :
  ~ In OpLabels os ->
  _labels (self (run_ os w)) = _labels (self w) /\
  iter_labels (self (run_ os w)) = iter_labels (self w) /\
  iter_count Labels (trace (run_ os w)) = iter_count Labels (trace w) /\
  constructed Labels (trace (run_ os w)) = constructed Labels (trace w).
Proof.
  intros Hnone.
  assert (H : labels_part (run_ os w) = labels_part w).
  { revert w. induction os as [|o os IH]; intros w; [reflexivity|].
    rewrite run_ops_cons, IH by (intros Hin; apply Hnone; now right).
    apply member_op_frame. intros ->. apply Hnone. now left. }
  inversion H. auto.
Qed.

(** *** What one access to the members builds *)

Lemma op_keeps_cache ls ms w o :
  inv_ ls ms w ->
  o <> OpLabels \/ _members (self w) = Some (cache_ ms) ->
  _members (self (run_op_ o w)) = Some (cache_ ms).
Proof.
  intros Hinv Hor. destruct o as [| | tag | attrs]; simpl.
  - destruct Hor as [Ho | Hc]; [congruence|].
    pose proof (labels_frame w) as Hf. inversion Hf as [[H1 H2 H3 H4]].
    now rewrite H1.
  - destruct (members_spec Hinv) as (w' & -> & _ & Hc). exact Hc.
  - destruct (get_member_spec correct_tag tag Hinv) as (w' & -> & _ & Hc).
    exact Hc.
  - destruct (get_member_by_spec getattr py_eq attrs Hinv)
      as (w' & -> & _ & Hc).
    exact Hc.
Qed.

(** X5: as soon as a call sequence contains one access to the members
    ([members], [get_member] or [get_member_by], even a single lookup by
    tag), the whole member array has gone through the member constructor,
    each element once and in the order of the array, the dictionary of all
    of them is cached, and the members generator is exhausted. *)
Theorem member_access_builds_all data c ms os :
  new_ data = Ret c ->
  py_iter (data_get_or data "memberList" (VList [])) = Ret ms ->
  (exists o, In o os /\ o <> OpLabels) ->
  let w := run_ os (fresh c) in
  _members (self w) = Some (cache_ ms) /\
  iter_members (self w) = [] /\
  constructed Members (trace w) = ms.
Proof.
  intros Hnew Hms (o & Hin & Ho) w.
  apply new_inv_ in Hnew as (ls & ms' & _ & Hms' & _ & Hinv).
  rewrite Hms in Hms'. inversion Hms'; subst ms'.
  assert (Hc : _members (self w) = Some (cache_ ms)).
  { apply in_split in Hin. destruct Hin as (os1 & os2 & Hos).
    unfold w. rewrite Hos. unfold run_ops. rewrite fold_left_app.
    fold (run_ os1 (fresh c)). simpl.
    pose proof (ops_inv_ os1 Hinv) as Hinv1.
    assert (Hc1 : _members (self (run_op_ o (run_ os1 (fresh c)))) =
                  Some (cache_ ms))
      by (apply op_keeps_cache with (ls := ls); auto).
    pose proof (run_op_inv correct_tag getattr py_eq o Hinv1) as Hinv2.
    set (w2 := run_op_ o (run_ os1 (fresh c))) in *.
    fold (run_ os2 w2). clearbody w2. clear Hos.
    revert w2 Hc1 Hinv2. induction os2 as [|o2 os2 IH]; intros w2 Hc1 Hinv2.
    - exact Hc1.
    - rewrite run_ops_cons. apply IH.
      + apply op_keeps_cache with (ls := ls); auto.
      + now apply run_op_inv. }
  pose proof (ops_inv_ os Hinv) as [_ Hm]. fold w in Hm.
  unfold members_inv in Hm. rewrite Hc in Hm.
  destruct Hm as (_ & Hit & _ & _ & Hcon). auto.
Qed.

(** *** The members list against the member array and against lookups *)

(** X6: [get_member] and [members] agree: a lookup by tag answers with a
    member exactly when that member is in the list [members] gives and its
    tag is the corrected form of the tag that was asked for. *)
Theorem get_member_iff_in_members data c os tag m :
  new_ data = Ret c ->
  let w := run_ os (fresh c) in
  exists mems,
    fst (members_ w) = Ret mems /\
    (fst (get_member_ tag w) = Ret (Some m) <->
     In m mems /\ member_tag m = correct_tag tag).
Proof.
  intros Hnew w.
  apply new_inv_ in Hnew as (ls & ms & _ & _ & _ & Hinv).
  apply (ops_inv_ os) in Hinv. fold w in Hinv.
  destruct (members_spec Hinv) as (w1 & E1 & _).
  destruct (get_member_spec correct_tag tag Hinv) as (w2 & E2 & _).
  rewrite E1, E2. simpl. eexists. split; [reflexivity|].
  unfold members_cache. rewrite dict_by_tag_values_find. split.
  - intros H. inversion H as [Hfind].
    assert (Htag : member_tag m = correct_tag tag).
    { rewrite dict_by_tag_find in Hfind.
      apply last_with_tag_Some in Hfind.
      now destruct Hfind as (l1 & l2 & _ & Htag & _). }
    split; [|exact Htag]. now rewrite Htag.
  - intros [Hfind Htag]. now rewrite <- Htag, Hfind.
Qed.

(** X7: the tags of [members] are pairwise different, every member of the
    list is built from an element of the member array, and every tag of the
    array is the tag of a member of the list. *)
Theorem members_unique_from_source data c items os :
  new_ data = Ret c ->
  py_iter (data_get_or data "memberList" (VList [])) = Ret items ->
  exists mems,
    fst (members_ (run_ os (fresh c))) = Ret mems /\
    NoDup (map member_tag mems) /\
    (forall m, In m mems -> exists x, In x items /\ m = member_cls x) /\
    (forall x, In x items ->
               exists m, In m mems /\
                         member_tag m = member_tag (member_cls x)).
Proof.
  intros Hnew Hitems.
  apply new_inv_ in Hnew as (ls & ms & _ & HM & _ & Hinv).
  rewrite Hitems in HM. inversion HM; subst ms.
  apply (ops_inv_ os) in Hinv.
  destruct (members_spec Hinv) as (w' & E & _). rewrite E. simpl.
  eexists. split; [reflexivity|]. unfold members_cache. split; [|split].
  - rewrite dict_by_tag_tags. apply dict_by_tag_keys_NoDup.
  - intros m Hm. apply dict_by_tag_values_incl in Hm.
    apply in_map_iff in Hm. destruct Hm as (x & <- & Hx). eauto.
  - intros x Hx.
    assert (Hk : In (member_tag (member_cls x))
                   (map member_tag
                      (Dict.values
                         (dict_by_tag member_tag (map member_cls items))))).
    { rewrite dict_by_tag_tags, dict_by_tag_keys, first_occurrences_In.
      apply in_map, in_map, Hx. }
    apply in_map_iff in Hk. destruct Hk as (m & Hm & Hin). eauto.
Qed.

(** X8: [members] never has more elements than the member array, and has
    as many exactly when no two elements of the array give the same tag. *)
Theorem members_length data c items os :
  new_ data = Ret c ->
  py_iter (data_get_or data "memberList" (VList [])) = Ret items ->
  exists mems,
    fst (members_ (run_ os (fresh c))) = Ret mems /\
    List.length mems <= List.length items /\
    (List.length mems = List.length items <->
     NoDup (map member_tag (map member_cls items))).
Proof.
  intros Hnew Hitems.
  apply new_inv_ in Hnew as (ls & ms & _ & HM & _ & Hinv).
  rewrite Hitems in HM. inversion HM; subst ms.
  apply (ops_inv_ os) in Hinv.
  destruct (members_spec Hinv) as (w' & E & _). rewrite E. simpl.
  eexists. split; [reflexivity|]. unfold members_cache.
  rewrite dict_by_tag_length.
  set (tags := map member_tag (map member_cls items)).
  assert (Hlen : List.length tags = List.length items)
    by (unfold tags; now rewrite !length_map).
  rewrite <- Hlen. split; [apply nodup_length_le | apply nodup_length_eq].
Qed.

(** *** Construction, continued *)

Lemma py_iter_raises (v : value) (e : exn) : py_iter v = Raise e -> e = TypeError.
Proof. destruct v; simpl; congruence. Qed.

(** X9: a clan that the constructor returns comes from a record whose
    ["labels"] and ["memberList"] entries (an empty list when the key is
    missing) can be iterated: an entry that holds [None], a boolean or a
    number never gives a clan.  Both caches of the returned clan are [None]
    and its two generators hold every sub-record of the two entries, in
    order. *)
Theorem Clan_built_only_from_iterable data c :
  new_ data = Ret c ->
  _labels c = None /\ _members c = None /\
  py_iter (data_get_or data "labels" (VList [])) = Ret (iter_labels c) /\
  py_iter (data_get_or data "memberList" (VList [])) = Ret (iter_members c) /\
  (forall k, k = "labels" \/ k = "memberList" ->
     match Dict.find k data with
     | Some VNone | Some (VBool _) | Some (VInt _) => False
     | _ => True
     end).
Proof.
  intros Hnew.
  apply new_inv_ in Hnew as (ls & ms & Hls & Hms & Hc & _).
  assert (H1 : iter_labels c = ls) by (now subst c).
  assert (H2 : iter_members c = ms) by (now subst c).
  rewrite H1, H2. repeat split; try assumption; try (now subst c).
  intros k [-> | ->].
  - unfold data_get_or in Hls.
    destruct (Dict.find "labels" data) as [[]|]; simpl in Hls;
      solve [exact I | discriminate Hls].
  - unfold data_get_or in Hms.
    destruct (Dict.find "memberList" data) as [[]|]; simpl in Hms;
      solve [exact I | discriminate Hms].
Qed.

(** X10: for a clan built from a record without a ["labels"] and without a
    ["memberList"] key, after any calls [labels] and [members] are empty
    and every lookup, by tag or by attributes, answers [None]. *)
Theorem absent_arrays_give_empty data c os :
  new_ data = Ret c ->
  Dict.find "labels" data = None ->
  Dict.find "memberList" data = None ->
  let w := run_ os (fresh c) in
  fst (labels_ w) = Ret [] /\
  fst (members_ w) = Ret [] /\
  (forall tag, fst (get_member_ tag w) = Ret None) /\
  (forall attrs, fst (get_member_by_ attrs w) = Ret None).
Proof.
  intros Hc HL HM w.
  apply new_inv_ in Hc as (ls & ms & Hls & Hms & _ & Hinv).
  unfold data_get_or in Hls, Hms. rewrite HL in Hls. rewrite HM in Hms.
  simpl in Hls, Hms. inversion Hls; inversion Hms; subst ls ms.
  apply (ops_inv_ os) in Hinv. fold w in Hinv.
  destruct (labels_spec Hinv) as (w1 & -> & _).
  destruct (members_spec Hinv) as (w2 & -> & _).
  repeat split.
  - intros tag.
    now destruct (get_member_spec correct_tag tag Hinv) as (w3 & -> & _).
  - intros attrs.
    now destruct (get_member_by_spec getattr py_eq attrs Hinv)
      as (w3 & -> & _).
Qed.

(** *** Reads on filled caches *)

(** X11: once the labels cache is set and the members cache holds at least
    one member, no sequence of accessor calls changes the clan or causes an
    event: [labels] hands out the cached list, [members] the values of the
    cached dictionary, and [get_member] what the dictionary holds under the
    corrected tag. *)
Theorem reads_on_filled_caches w os l kv d :
  _labels (self w) = Some l ->
  _members (self w) = Some (kv :: d) ->
  run_ os w = w /\
  labels_ w = (Ret l, w) /\
  members_ w = (Ret (Dict.values (kv :: d)), w) /\
  (forall tag,
     get_member_ tag w = (Ret (Dict.find (correct_tag tag) (kv :: d)), w)).
Proof.
  intros HL HM.
  assert (Hl : labels_ w = (Ret l, w)).
  { unfold_acc. now rewrite HL. }
  assert (Hm : members_ w = (Ret (Dict.values (kv :: d)), w)).
  { unfold_acc. now rewrite HM. }
  assert (Hg : forall tag,
    get_member_ tag w = (Ret (Dict.find (correct_tag tag) (kv :: d)), w)).
  { intros tag. unfold_acc. rewrite HM. simpl.
    now destruct (Dict.find (correct_tag tag) (kv :: d)). }
  repeat split; auto.
  induction os as [|o os IH]; [reflexivity|].
  rewrite run_ops_cons.
  assert (Ho : run_op_ o w = w).
  { destruct o as [| | tag | attrs]; simpl.
    - now rewrite Hl.
    - now rewrite Hm.
    - now rewrite Hg.
    - unfold get_member_by, bind. now rewrite Hm. }
  now rewrite Ho.
Qed.

(** *** Lookups by tag on a clan without members *)

Lemma get_member_no_members w tag :
  iter_members (self w) = [] ->
  _members (self w) = None \/ _members (self w) = Some [] ->
  exists w',
    get_member_ tag w = (Ret None, w') /\
    iter_members (self w') = [] /\
    _members (self w') = Some [] /\
    trace w' = trace w ++ [EvIter Members].
Proof.
  destruct w as [c tr]. simpl. intros Hit Hor. unfold_acc. simpl.
  destruct Hor as [-> | ->]; simpl; rewrite Hit; simpl;
    eexists; repeat split; reflexivity.
Qed.

(** X12: on a clan built from a record with an empty member array (or
    none), every [get_member] answers [None], builds no member, and runs
    over the exhausted members generator once more: after [n] lookups the
    generator has been consumed [n] times. *)
Theorem get_member_on_memberless_clan data c tags :
  new_ data = Ret c ->
  py_iter (data_get_or data "memberList" (VList [])) = Ret [] ->
  let w := run_ (map OpGetMember tags) (fresh c) in
  iter_count Members (trace w) = List.length tags /\
  constructed Members (trace w) = [] /\
  (forall tag, fst (get_member_ tag w) = Ret None).
Proof.
  intros Hnew Hms.
  apply new_inv_ in Hnew as (ls & ms & _ & Hms' & Hc & _).
  rewrite Hms in Hms'. inversion Hms'; subst ms.
  assert (Hnil : iter_members (self (fresh c)) = []) by (now subst c).
  assert (Hnone : _members (self (fresh c)) = None) by (now subst c).
  assert (Hgen : forall w0,
    iter_members (self w0) = [] ->
    _members (self w0) = None \/ _members (self w0) = Some [] ->
    let w1 := run_ (map OpGetMember tags) w0 in
    iter_members (self w1) = [] /\
    (_members (self w1) = None \/ _members (self w1) = Some []) /\
    iter_count Members (trace w1) =
      iter_count Members (trace w0) + List.length tags /\
    constructed Members (trace w1) = constructed Members (trace w0)).
  { clear. induction tags as [|t ts IH]; intros w0 H0 H1; simpl.
    - repeat split; auto.
    - destruct (@get_member_no_members w0 t H0 H1)
        as (w' & E & Hi & Hc & Htr).
      rewrite E. simpl.
      destruct (IH w' Hi (or_intror Hc)) as (I1 & I2 & I3 & I4).
      repeat split; auto.
      + rewrite I3, Htr. events_simpl. unfold iter_count. simpl. lia.
      + rewrite I4, Htr. events_simpl. simpl. now rewrite ?app_nil_r. }
  intros w.
  destruct (Hgen (fresh c) Hnil (or_introl Hnone)) as (G1 & G2 & G3 & G4).
  fold w in G1, G2, G3, G4. repeat split; auto.
  intros tag.
  now destruct (@get_member_no_members w tag G1 G2) as (w' & -> & _).
Qed.
End ClanMore.

(** ** The further properties on concrete records *)

Lemma labels_reads_leave_members_witness :
  (forall o : op value, In o [OpLabels; OpLabels] -> o = OpLabels) /\
  _members (self (Sample.run [OpLabels; OpLabels] (fresh Sample.clan1))) =
    None /\
  constructed Members
    (trace (Sample.run [OpLabels; OpLabels] (fresh Sample.clan1))) = [].
Proof.
  assert (H : forall o : op value, In o [OpLabels; OpLabels] -> o = OpLabels).
  { intros o [<- | [<- | []]]; reflexivity. }
  split; [exact H|].
  destruct (labels_reads_leave_members Sample.label_cls Sample.member_cls
              Sample.m_tag Sample.correct_tag Sample.getattr
              Sample.scalar_eqb (fresh Sample.clan1) [OpLabels; OpLabels] H)
    as (H1 & _ & _ & H4).
  split; [exact H1 | exact H4].
Defined.

Lemma member_reads_leave_labels_witness :
  ~ In (@OpLabels value) [OpGetMember "#AAA"; OpMembers] /\
  _labels
    (self (Sample.run [OpGetMember "#AAA"; OpMembers] (fresh Sample.clan1))) =
    None /\
  constructed Labels
    (trace (Sample.run [OpGetMember "#AAA"; OpMembers] (fresh Sample.clan1))) =
    [].
Proof.
  assert (H : ~ In (@OpLabels value) [OpGetMember "#AAA"; OpMembers]).
  { intros [H | [H | []]]; discriminate H. }
  split; [exact H|].
  destruct (member_reads_leave_labels Sample.label_cls Sample.member_cls
              Sample.m_tag Sample.correct_tag Sample.getattr
              Sample.scalar_eqb (fresh Sample.clan1)
              [OpGetMember "#AAA"; OpMembers] H)
    as (H1 & _ & _ & H4).
  split; [exact H1 | exact H4].
Defined.

Lemma labels_consumed_at_most_once_witness :
  Sample.new Sample.data1 = Ret Sample.clan1 /\
  iter_count Labels
    (trace (Sample.run [OpLabels; OpMembers; OpLabels; OpLabels]
              (fresh Sample.clan1))) <= 1.
Proof.
  split; [reflexivity|].
  apply (labels_consumed_at_most_once Sample.label_cls Sample.member_cls
           Sample.Location_cls Sample.WarLeague_cls Sample.m_tag
           Sample.correct_tag Sample.getattr Sample.scalar_eqb Sample.unset
           Sample.data1
           [OpLabels; OpMembers; OpLabels; OpLabels] eq_refl).
Defined.

Lemma members_built_at_most_once_witness :
  Sample.new Sample.data1 = Ret Sample.clan1 /\
  exists ms,
    py_iter (data_get_or Sample.data1 "memberList" (VList [])) = Ret ms /\
    (constructed Members
       (trace (Sample.run [OpMembers; OpGetMember "x"; OpMembers]
                 (fresh Sample.clan1))) = [] \/
     constructed Members
       (trace (Sample.run [OpMembers; OpGetMember "x"; OpMembers]
                 (fresh Sample.clan1))) = ms) /\
    (ms <> [] ->
     iter_count Members
       (trace (Sample.run [OpMembers; OpGetMember "x"; OpMembers]
                 (fresh Sample.clan1))) <= 1).
Proof.
  split; [reflexivity|].
  apply (members_built_at_most_once Sample.label_cls Sample.member_cls
           Sample.Location_cls Sample.WarLeague_cls Sample.m_tag
           Sample.correct_tag Sample.getattr Sample.scalar_eqb Sample.unset
           Sample.data1
           [OpMembers; OpGetMember "x"; OpMembers] eq_refl).
Defined.

Lemma member_access_builds_all_witness :
  Sample.new Sample.data1 = Ret Sample.clan1 /\
  py_iter (data_get_or Sample.data1 "memberList" (VList [])) =
    Ret Sample.members1 /\
  (exists o : op value, In o [OpLabels; OpGetMember "nobody"] /\ o <> OpLabels) /\
  constructed Members
    (trace (Sample.run [OpLabels; OpGetMember "nobody"] (fresh Sample.clan1))) =
    Sample.members1.
Proof.
  assert (H : exists o : op value,
                In o [OpLabels; OpGetMember "nobody"] /\ o <> OpLabels).
  { exists (OpGetMember "nobody"). split; [right; now left | discriminate]. }
  split; [reflexivity | split; [reflexivity | split; [exact H|]]].
  apply (member_access_builds_all Sample.label_cls Sample.member_cls
           Sample.Location_cls Sample.WarLeague_cls Sample.m_tag
           Sample.correct_tag Sample.getattr Sample.scalar_eqb Sample.unset
           Sample.data1
           [OpLabels; OpGetMember "nobody"] eq_refl eq_refl H).
Defined.

Lemma get_member_iff_in_members_witness :
  Sample.new Sample.data1 = Ret Sample.clan1 /\
  exists mems,
    fst (members Sample.member_cls Sample.m_tag (fresh Sample.clan1)) =
      Ret mems /\
    (fst (get_member Sample.member_cls Sample.m_tag Sample.correct_tag "bbb"
            (fresh Sample.clan1)) =
       Ret (Some (Sample.member_cls (Sample.mk_member "#BBB" "bob" 125))) <->
     In (Sample.member_cls (Sample.mk_member "#BBB" "bob" 125)) mems /\
     Sample.m_tag (Sample.member_cls (Sample.mk_member "#BBB" "bob" 125)) =
       Sample.correct_tag "bbb").
Proof.
  split; [reflexivity|].
  apply (get_member_iff_in_members Sample.label_cls Sample.member_cls
           Sample.Location_cls Sample.WarLeague_cls Sample.m_tag
           Sample.correct_tag Sample.getattr Sample.scalar_eqb Sample.unset
           Sample.data1
           [] "bbb" (Sample.member_cls (Sample.mk_member "#BBB" "bob" 125))
           eq_refl).
Defined.

Lemma members_unique_from_source_witness :
  Sample.new Sample.data1 = Ret Sample.clan1 /\
  py_iter (data_get_or Sample.data1 "memberList" (VList [])) =
    Ret Sample.members1 /\
  exists mems,
    fst (members Sample.member_cls Sample.m_tag
           (Sample.run [OpGetMember "x"] (fresh Sample.clan1))) = Ret mems /\
    NoDup (map Sample.m_tag mems) /\
    (forall m, In m mems ->
               exists x, In x Sample.members1 /\ m = Sample.member_cls x) /\
    (forall x, In x Sample.members1 ->
               exists m, In m mems /\
                         Sample.m_tag m = Sample.m_tag (Sample.member_cls x)).
Proof.
  split; [reflexivity | split; [reflexivity|]].
  apply (members_unique_from_source Sample.label_cls Sample.member_cls
           Sample.Location_cls Sample.WarLeague_cls Sample.m_tag
           Sample.correct_tag Sample.getattr Sample.scalar_eqb Sample.unset
           Sample.data1
           [OpGetMember "x"] eq_refl eq_refl).
Defined.

Lemma members_length_witness :
  Sample.new Sample.data1 = Ret Sample.clan1 /\
  py_iter (data_get_or Sample.data1 "memberList" (VList [])) =
    Ret Sample.members1 /\
  exists mems,
    fst (members Sample.member_cls Sample.m_tag (fresh Sample.clan1)) =
      Ret mems /\
    List.length mems <= List.length Sample.members1 /\
    (List.length mems = List.length Sample.members1 <->
     NoDup (map Sample.m_tag (map Sample.member_cls Sample.members1))).
Proof.
  split; [reflexivity | split; [reflexivity|]].
  apply (members_length Sample.label_cls Sample.member_cls
           Sample.Location_cls Sample.WarLeague_cls Sample.m_tag
           Sample.correct_tag Sample.getattr Sample.scalar_eqb Sample.unset
           Sample.data1
           [] eq_refl eq_refl).
Defined.

Lemma Clan_built_only_from_iterable_witness :
  Sample.new Sample.data1 = Ret Sample.clan1 /\
  _labels Sample.clan1 = None /\ _members Sample.clan1 = None /\
  py_iter (data_get_or Sample.data1 "labels" (VList [])) =
    Ret (iter_labels Sample.clan1) /\
  py_iter (data_get_or Sample.data1 "memberList" (VList [])) =
    Ret (iter_members Sample.clan1) /\
  (forall k, k = "labels" \/ k = "memberList" ->
     match Dict.find k Sample.data1 with
     | Some VNone | Some (VBool _) | Some (VInt _) => False
     | _ => True
     end).
Proof.
  split; [reflexivity|].
  apply Clan_built_only_from_iterable
    with (Location_cls := Sample.Location_cls)
         (WarLeague_cls := Sample.WarLeague_cls) (unset := Sample.unset);
    [exact Sample.label_cls | exact Sample.member_cls | exact Sample.m_tag
    | reflexivity].
Defined.

Lemma absent_arrays_give_empty_witness :
  Sample.new Sample.data0 = Ret Sample.clan0 /\
  Dict.find "labels" Sample.data0 = None /\
  Dict.find "memberList" Sample.data0 = None /\
  let w := Sample.run [OpGetMember "x"; OpLabels] (fresh Sample.clan0) in
  fst (labels Sample.label_cls w) = Ret [] /\
  fst (members Sample.member_cls Sample.m_tag w) = Ret [] /\
  (forall tag,
     fst (get_member Sample.member_cls Sample.m_tag Sample.correct_tag
            tag w) = Ret None) /\
  (forall attrs,
     fst (get_member_by Sample.member_cls Sample.m_tag Sample.getattr
            Sample.scalar_eqb attrs w) = Ret None).
Proof.
  split; [reflexivity | split; [reflexivity | split; [reflexivity|]]].
  apply absent_arrays_give_empty
    with (Location_cls := Sample.Location_cls)
         (WarLeague_cls := Sample.WarLeague_cls) (unset := Sample.unset)
         (data := Sample.data0);
    reflexivity.
Defined.

Lemma reads_on_filled_caches_witness :
  let w := Sample.run [OpLabels; OpMembers] (fresh Sample.clan1) in
  let os := [OpGetMember "zzz"; OpLabels; OpGetMemberBy [("level", VInt 1)];
             OpMembers] in
  _labels (self w) = Some Sample.labels1 /\
  Sample.run os w = w.
Proof.
  intros w os. split; [reflexivity|].
  apply (reads_on_filled_caches Sample.label_cls Sample.member_cls
           Sample.m_tag Sample.correct_tag Sample.getattr Sample.scalar_eqb
           w os (l := Sample.labels1) eq_refl eq_refl).
Defined.

Lemma get_member_on_memberless_clan_witness :
  Sample.new Sample.data0 = Ret Sample.clan0 /\
  py_iter (data_get_or Sample.data0 "memberList" (VList [])) = Ret [] /\
  iter_count Members
    (trace (Sample.run (map OpGetMember ["a"; "b"; "c"])
              (fresh Sample.clan0))) = 3.
Proof.
  split; [reflexivity | split; [reflexivity|]].
  apply (get_member_on_memberless_clan Sample.label_cls Sample.member_cls
           Sample.Location_cls Sample.WarLeague_cls Sample.m_tag
           Sample.correct_tag Sample.getattr Sample.scalar_eqb Sample.unset
           Sample.data0
           ["a"; "b"; "c"] eq_refl eq_refl).
Defined.
